(** * imgdiff: a minimal image diff utility for visual-regression workflows

    Shallow embedding of [scripts/imgdiff.py].  The script parses its
    command line, imports Pillow, opens two images, compares their sizes,
    computes a root-mean-square difference, possibly saves a difference
    image, and returns an exit status (0 identical, 1 different, 2 error).

    Python's [float] is IEEE 754 binary64, which is Rocq's primitive
    [float]; integers are [Z]; the file system is a finite map from paths
    to files; what the process prints and saves is recorded as a trace of
    events, in program order. *)

From Stdlib Require Import ZArith List Bool Lia Floats Ascii DecimalString.
From stdpp Require Import base gmap strings.

Local Open Scope Z_scope.

(** ** Python numbers and their text *)

Module Py.

(** [float(n)] for an integer [n]: the nearest binary64, ties to even.
    It is also the conversion [/] applies to an integer operand. *)
Definition float_of_Z (n : Z) : float :=
  SF2Prim (binary_normalize prec emax n 0 false).

(** The builtin [sum] over floats: it starts from the integer [0] and
    adds from left to right. *)
Definition sum (xs : list float) : float :=
  fold_left PrimFloat.add xs (float_of_Z 0).

(** [x ** 0.5] for a float [x] that is not negative, taken as the
    correctly rounded square root. *)
Definition pow_half (x : float) : float := PrimFloat.sqrt x.

(** [str(n)] for an integer. *)
Definition str_int (n : Z) : string := NilZero.string_of_int (Z.to_int n).

(** [str((a, b))] for a pair of integers, e.g. ["(10, 20)"]. *)
Definition str_pair (p : Z * Z) : string :=
  "(" +:+ str_int p.1 +:+ ", " +:+ str_int p.2 +:+ ")".

(** Nearest integer to [num / den], ties to even ([0 <= num], [0 < den]). *)
Definition round_half_even (num den : Z) : Z :=
  let q := num / den in
  match 2 * (num mod den) ?= den with
  | Lt => q
  | Gt => q + 1
  | Eq => if Z.even q then q else q + 1
  end.

(** Nearest integer to [m * 2^e * 10^4], ties to even. *)
Definition scale_4 (m : positive) (e : Z) : Z :=
  if 0 <=? e then Z.pos m * 2 ^ e * 10000
  else round_half_even (Z.pos m * 10000) (2 ^ (- e)).

Definition digit (d : Z) : Ascii.ascii := Ascii.ascii_of_N (48 + Z.to_N d).

(** The four decimals of a scaled value. *)
Definition decimals_4 (n : Z) : string :=
  String (digit (n / 1000 mod 10))
    (String (digit (n / 100 mod 10))
      (String (digit (n / 10 mod 10))
        (String (digit (n mod 10)) EmptyString))).

Definition sign_str (s : bool) : string := if s then "-" else "".

(** The format specification [:.4f]: fixed point with four decimals,
    correctly rounded from the exact binary value; a nan or an infinity
    is written by name. *)
Definition format_4f (x : float) : string :=
  match Prim2SF x with
  | S754_nan => "nan"
  | S754_infinity s => sign_str s +:+ "inf"
  | S754_zero s => sign_str s +:+ "0.0000"
  | S754_finite s m e =>
      let n := scale_4 m e in
      sign_str s +:+ str_int (n / 10000) +:+ "." +:+ decimals_4 n
  end.

End Py.

(** ** Pillow: images, [ImageChops.difference], [ImageStat.Stat]

    Pillow is a dependency of the script, not part of it; its operations
    are modelled from their documented meaning. *)

Record Pixel := RGBA { red : Z; green : Z; blue : Z; alpha : Z }.

(** An image in mode RGBA: its [size] is the pair (width, height), its
    [pixels] are in raster order.  Pillow does not open an image with a
    zero dimension, so an opened image has at least one pixel. *)
Record Image := { size : Z * Z; pixels : list Pixel }.

Definition band := Pixel -> Z.

Definition bands : list band := [red; green; blue; alpha].

Module ImageChops.

Definition difference_pixel (p q : Pixel) : Pixel :=
  RGBA (Z.abs (red p - red q)) (Z.abs (green p - green q))
       (Z.abs (blue p - blue q)) (Z.abs (alpha p - alpha q)).

(** [ImageChops.difference(image1, image2)]: the absolute value of the
    pixel-by-pixel difference. *)
Definition difference (image1 image2 : Image) : Image :=
  {| size := size image1;
     pixels := zip_with difference_pixel (pixels image1) (pixels image2) |}.

End ImageChops.

Module Stat.

(** Number of pixels of a band. *)
Definition count (im : Image) : Z := Z.of_nat (length (pixels im)).

(** Sum of the squared values of a band.  Pillow accumulates it in
    binary64 from the histogram; every partial sum is an integer below
    [2^53] for any image it opens, hence exact. *)
Definition sum2 (im : Image) (b : band) : Z :=
  fold_right (fun p acc => b p * b p + acc) 0 (pixels im).

(** [Stat(im).rms]: for each band, [math.sqrt(sum2 / count)]. *)
Definition rms (im : Image) : list float :=
  map (fun b => PrimFloat.sqrt
                  (Py.float_of_Z (sum2 im b) / Py.float_of_Z (count im)))
      bands.

End Stat.

(** ** The environment of one invocation *)

(** A file either decodes to an image (held here as its RGBA conversion)
    or makes [Image.open(..).convert("RGBA")] raise, with the given text. *)
Inductive File :=
| ImageFile (im : Image)
| Unreadable (exc : string).

Record World := {
  pillow_installed : bool;
  files : gmap string File
}.

(** The namespace returned by [parser.parse_args()]. *)
Record Args := {
  baseline : string;
  current : string;
  out : string;
  max_rms : float
}.

(** Defaults of the optional arguments. *)
Definition default_out : string := "diff.png".
Definition default_max_rms : float := 0%float.

(** What a run does to the outside, in order. *)
Inductive Event :=
| Stdout (line : string)
| Stderr (line : string)
| Save (path : string) (im : Image).

Definition stdout (t : list Event) : list string :=
  omap (fun e => match e with Stdout l => Some l | _ => None end) t.

Definition stderr (t : list Event) : list string :=
  omap (fun e => match e with Stderr l => Some l | _ => None end) t.

Definition saved (t : list Event) : list (string * Image) :=
  omap (fun e => match e with Save p im => Some (p, im) | _ => None end) t.

(** The file system once the events of a trace have happened. *)
Definition files_after (fs : gmap string File) (t : list Event)
  : gmap string File :=
  fold_left (fun d e => match e with
                        | Save p im => <[p := ImageFile im]> d
                        | _ => d
                        end) t fs.

(** ** The script *)

(** Result of a [try] body: a value, or the text of the exception. *)
Inductive Exc (A : Type) :=
| Ok (x : A)
| Raise (exc : string).
Arguments Ok {A} x.
Arguments Raise {A} exc.

Definition bind {A B} (m : Exc A) (k : A -> Exc B) : Exc B :=
  match m with
  | Ok x => k x
  | Raise exc => Raise exc
  end.

Notation "x <- m ;; k" := (bind m (fun x => k))
  (at level 100, m at next level, right associativity).

(** [Image.open(path).convert("RGBA")]. *)
Definition open_rgba (w : World) (path : string) : Exc Image :=
  match files w !! path with
  | Some (ImageFile im) => Ok im
  | Some (Unreadable exc) => Raise exc
  | None => Raise ("[Errno 2] No such file or directory: '" +:+ path +:+ "'")
  end.

(** The body of the second [try]: baseline first, then current. *)
Definition open_images (w : World) (args : Args) : Exc (Image * Image) :=
  b <- open_rgba w (baseline args) ;;
  c <- open_rgba w (current args) ;;
  Ok (b, c).

Definition size_eqb (s1 s2 : Z * Z) : bool :=
  (s1.1 =? s2.1) && (s1.2 =? s2.2).

(** Lines 45-49: the difference image and the overall RMS,
    [(sum(v * v for v in rms_channels) / len(rms_channels)) ** 0.5]. *)
Definition rms_of (diff : Image) : float :=
  let rms_channels := Stat.rms diff in
  Py.pow_half
    (Py.sum (map (fun v => v * v)%float rms_channels)
     / Py.float_of_Z (Z.of_nat (length rms_channels))).

Definition rms (b c : Image) : float :=
  rms_of (ImageChops.difference b c).

Definition differ_message (r : float) (args : Args) : string :=
  "Images differ (RMS=" +:+ Py.format_4f r +:+ ", threshold="
  +:+ Py.format_4f (max_rms args) +:+ "). Wrote " +:+ out args.

(** [main], after [parse_args]: the trace of the run and its exit status. *)
Definition main (w : World) (args : Args) : list Event * Z :=
  if negb (pillow_installed w) then
    ([Stderr "Pillow is required. Install with: pip install pillow"], 2)
  else
    match open_images w args with
    | Raise exc => ([Stderr ("Failed to read images: " +:+ exc)], 2)
    | Ok (b, c) =>
        if negb (size_eqb (size b) (size c)) then
          ([Stderr ("Different sizes: " +:+ Py.str_pair (size b)
                    +:+ " vs " +:+ Py.str_pair (size c))], 1)
        else
          let diff := ImageChops.difference b c in
          let r := rms_of diff in
          let t := if (0 <? r)%float then [Save (out args) diff] else [] in
          if (r <=? max_rms args)%float then (t, 0)
          else (t ++ [Stdout (differ_message r args)], 1)
    end.

Definition trace (w : World) (args : Args) : list Event := (main w args).1.
Definition exit_code (w : World) (args : Args) : Z := (main w args).2.

(** Both images load: Pillow is there and each path holds a decodable
    file. *)
Definition loads (w : World) (args : Args) (b c : Image) : Prop :=
  pillow_installed w = true /\
  files w !! baseline args = Some (ImageFile b) /\
  files w !! current args = Some (ImageFile c).

(** A path whose [Image.open(..).convert("RGBA")] raises. *)
Definition cannot_open (w : World) (path : string) : Prop :=
  exists exc, open_rgba w path = Raise exc.

(** The same command line with another [--max-rms]. *)
Definition with_max_rms (args : Args) (t : float) : Args :=
  {| baseline := baseline args; current := current args;
     out := out args; max_rms := t |}.

(** Number of lines a trace writes to either stream. *)
Definition lines_written (t : list Event) : nat :=
  (length (stdout t) + length (stderr t))%nat.

(** ** The aggregate RMS as the specification words it

    The absolute per-pixel difference of one channel, its root mean
    square over all pixels, and the root of the mean of the four squared
    channel values. *)

Definition abs_differences (b c : Image) (ch : band) : list Z :=
  zip_with (fun p q => Z.abs (ch p - ch q)) (pixels b) (pixels c).

Definition sum_of_squares (xs : list Z) : Z :=
  fold_right Z.add 0 (map (fun x => x * x) xs).

Definition root_mean_square (xs : list Z) : float :=
  PrimFloat.sqrt
    (Py.float_of_Z (sum_of_squares xs) / Py.float_of_Z (Z.of_nat (length xs))).

Definition channel_rms (b c : Image) (ch : band) : float :=
  root_mean_square (abs_differences b c ch).


(** ** Sample invocations *)

Definition solid (w h : nat) (p : Pixel) : Image :=
  {| size := (Z.of_nat w, Z.of_nat h); pixels := repeat p (w * h) |}.

Definition solid_red_2x2 : Image := solid 2 2 (RGBA 255 0 0 255).
Definition solid_blue_2x2 : Image := solid 2 2 (RGBA 0 0 255 255).
Definition grey_10x10 : Image := solid 10 10 (RGBA 128 128 128 255).
Definition grey_20x20 : Image := solid 20 20 (RGBA 128 128 128 255).

Definition sample_world : World :=
  {| pillow_installed := true;
     files := {[ "baseline.png" := ImageFile solid_red_2x2;
                 "current.png" := ImageFile solid_blue_2x2;
                 "small.png" := ImageFile grey_10x10;
                 "large.png" := ImageFile grey_20x20;
                 "notes.txt" :=
                   Unreadable "cannot identify image file 'notes.txt'" ]} |}.

Definition compare (b c : string) (t : float) : Args :=
  {| baseline := b; current := c; out := default_out; max_rms := t |}.


(** ** The command line: [argparse]

    [main] builds a parser with two positionals, [baseline] and
    [current], and two options, [--out] and [--max-rms] (a float); the
    parser adds [-h/--help] itself.  [argparse] is Python's library, not
    part of the script: [parse_args] is modelled on its algorithm, which
    first classifies every string as an option ('O'), an argument ('A') or
    the first "--" ('-'), then consumes positionals and options in turn.
    An argument that is exactly "--" is kept as that string. *)

(** Outcome of parsing: a value, the help request, or a usage error. *)
Inductive Parse (A : Type) :=
| Done (x : A)
| PrintHelp
| Fail (message : string).
Arguments Done {A} x.
Arguments PrintHelp {A}.
Arguments Fail {A} message.

Definition parse_bind {A B} (m : Parse A) (k : A -> Parse B) : Parse B :=
  match m with
  | Done x => k x
  | PrintHelp => PrintHelp
  | Fail msg => Fail msg
  end.

Notation "x <~ m ;; k" := (parse_bind m (fun x => k))
  (at level 100, m at next level, right associativity).

Inductive Action := Help | StoreOut | StoreMaxRms.

(** The option strings of the parser, in the order they were added. *)
Definition option_string_actions : list (string * Action) :=
  [("-h", Help); ("--help", Help);
   ("--out", StoreOut); ("--max-rms", StoreMaxRms)].

Definition lookup_option (s : string) : option Action :=
  snd <$> List.find (fun p => String.eqb p.1 s) option_string_actions.

(** The name of an option in an error message. *)
Definition action_name (a : Action) : string :=
  match a with
  | Help => "-h/--help"
  | StoreOut => "--out"
  | StoreMaxRms => "--max-rms"
  end.

(** [repr] of a string without quotes, backslashes or control characters. *)
Definition repr (s : string) : string := "'" +:+ s +:+ "'".

(** [s.split('=', 1)] when ['='] occurs in [s]. *)
Fixpoint split_eq (s : string) : option (string * string) :=
  match s with
  | EmptyString => None
  | String c s' =>
      if Ascii.eqb c "="%char then Some (EmptyString, s')
      else match split_eq s' with
           | Some (a, b) => Some (String c a, b)
           | None => None
           end
  end.

Fixpoint contains_space (s : string) : bool :=
  match s with
  | EmptyString => false
  | String c s' => Ascii.eqb c " "%char || contains_space s'
  end.

Definition is_digit (c : Ascii.ascii) : bool :=
  let n := Ascii.N_of_ascii c in (N.leb 48 n) && (N.leb n 57).

Fixpoint all_digits (s : string) : bool :=
  match s with
  | EmptyString => true
  | String c s' => is_digit c && all_digits s'
  end.

Fixpoint skip_digits (s : string) : string :=
  match s with
  | String c s' => if is_digit c then skip_digits s' else s
  | EmptyString => s
  end.

Fixpoint chop_newline (s : string) : string :=
  match s with
  | EmptyString => s
  | String c s' =>
      match s' with
      | EmptyString => if Ascii.eqb c "010"%char then EmptyString else s
      | _ => String c (chop_newline s')
      end
  end.

Definition nonempty (s : string) : bool :=
  match s with EmptyString => false | _ => true end.

(** The negative-number matcher, [^-\d+$|^-\d*\.\d+$] over ASCII digits;
    [$] also matches before a final newline. *)
Definition negative_number (s : string) : bool :=
  match chop_newline s with
  | String "-" t =>
      (nonempty t && all_digits t)
      || match skip_digits t with
         | String "." d => nonempty d && all_digits d
         | _ => false
         end
  | _ => false
  end.

(** An option found in an argument string: its action if any, the option
    string, and the argument given with it. *)
Definition OptionTuple : Type := option Action * string * option string.

(** [_get_option_tuples]: the options an unlisted string may stand for. *)
Definition get_option_tuples (s : string) : list OptionTuple :=
  match s with
  | String "-" (String "-" _) =>
      let '(option_prefix, explicit_arg) :=
        match split_eq s with
        | Some (p, e) => (p, Some e)
        | None => (s, None)
        end in
      omap (fun p : string * Action =>
              if String.prefix option_prefix p.1
              then Some (Some p.2, p.1, explicit_arg) else None)
           option_string_actions
  | String "-" (String c rest) =>
      omap (fun p : string * Action =>
              if String.eqb p.1 (String "-" (String c EmptyString))
              then Some (Some p.2, p.1, Some rest)
              else if String.prefix s p.1
                   then Some (Some p.2, p.1, None) else None)
           option_string_actions
  | _ => []
  end.

Definition join (sep : string) (l : list string) : string :=
  String.concat sep l.

(** An option string of the parser followed by ["="] and an argument. *)
Definition option_with_equals (s : string) : option OptionTuple :=
  match split_eq s with
  | Some (os, e) =>
      match lookup_option os with
      | Some a => Some (Some a, os, Some e)
      | None => None
      end
  | None => None
  end.

(** A string that is no option of the parser, whole or before ["="]. *)
Definition parse_abbreviation (s : string) : Parse (option OptionTuple) :=
  match get_option_tuples s with
  | [] =>
      if negative_number s then Done None
      else if contains_space s then Done None
      else Done (Some (None, s, None))
  | [t] => Done (Some t)
  | ts =>
      Fail ("ambiguous option: " +:+ s +:+ " could match "
            +:+ join ", " (map (fun t : OptionTuple => t.1.2) ts))
  end.

(** [_parse_optional]: [None] for a string meant as a positional. *)
Definition parse_optional (s : string) : Parse (option OptionTuple) :=
  match s with
  | EmptyString => Done None
  | String c _ =>
      if negb (Ascii.eqb c "-"%char) then Done None
      else
        match lookup_option s with
        | Some a => Done (Some (Some a, s, None))
        | None =>
            if (String.length s =? 1)%nat then Done None
            else
              match option_with_equals s with
              | Some t => Done (Some t)
              | None => parse_abbreviation s
              end
        end
  end.

(** The pattern of an argument string. *)
Inductive Pattern :=
| A
| Dash
| O (t : OptionTuple).

Definition Item : Type := string * Pattern.

Fixpoint classify (arg_strings : list string) : Parse (list Item) :=
  match arg_strings with
  | [] => Done []
  | s :: rest =>
      if String.eqb s "--" then Done ((s, Dash) :: map (fun t => (t, A)) rest)
      else
        o <~ parse_optional s ;;
        items <~ classify rest ;;
        Done ((s, match o with Some t => O t | None => A end) :: items)
  end.

Definition is_O (it : Item) : bool :=
  match it.2 with O _ => true | _ => false end.

Definition is_Dash (it : Item) : bool :=
  match it.2 with Dash => true | _ => false end.

Fixpoint take_while {X} (f : X -> bool) (l : list X) : list X :=
  match l with
  | x :: l' => if f x then x :: take_while f l' else []
  | [] => []
  end.

Fixpoint drop_while {X} (f : X -> bool) (l : list X) : list X :=
  match l with
  | x :: l' => if f x then drop_while f l' else l
  | [] => []
  end.

(** The namespace while it is filled: the values of the positionals seen
    so far, in order, and the two options. *)
Record Namespace := {
  ns_positionals : list string;
  ns_out : string;
  ns_max_rms : float
}.

Definition empty_namespace : Namespace :=
  {| ns_positionals := [];
     ns_out := default_out; ns_max_rms := default_max_rms |}.

Definition set_positional (ns : Namespace) (v : string) : Namespace :=
  {| ns_positionals := ns_positionals ns ++ [v];
     ns_out := ns_out ns; ns_max_rms := ns_max_rms ns |}.

(** Positionals not seen yet, of [baseline] and [current]. *)
Definition pending (ns : Namespace) : nat :=
  (2 - length (ns_positionals ns))%nat.

(** One positional, pattern [-*A-*]: the argument it takes and what
    follows it. *)
Definition match_positional (items : list Item) : option (string * list Item) :=
  match drop_while is_Dash items with
  | (s, A) :: rest => Some (s, drop_while is_Dash rest)
  | _ => None
  end.

(** [consume_positionals]: as many pending positionals as arguments
    allow. *)
Fixpoint consume_positionals (n : nat) (ns : Namespace) (items : list Item)
  : Namespace * list Item :=
  match n with
  | 0%nat => (ns, items)
  | S n' =>
      match match_positional items with
      | Some (v, rest) => consume_positionals n' (set_positional ns v) rest
      | None => (ns, items)
      end
  end.

Section Parser.

(** [float(s)] for a string, [None] when it raises [ValueError]. *)
Variable py_float : string -> option float.

(** [take_action] for an option with its argument. *)
Definition store (a : Action) (v : string) (ns : Namespace) : Parse Namespace :=
  match a with
  | Help => PrintHelp
  | StoreOut =>
      Done {| ns_positionals := ns_positionals ns;
              ns_out := v; ns_max_rms := ns_max_rms ns |}
  | StoreMaxRms =>
      match py_float v with
      | Some x =>
          Done {| ns_positionals := ns_positionals ns;
                  ns_out := ns_out ns; ns_max_rms := x |}
      | None =>
          Fail ("argument --max-rms: invalid float value: " +:+ repr v)
      end
  end.

(** [-h] with more characters behind it: each must be another [h]. *)
Fixpoint help_chain (explicit_arg : string) : Parse (Namespace * list Item) :=
  match explicit_arg with
  | EmptyString => PrintHelp
  | String c rest =>
      if Ascii.eqb c "h"%char then help_chain rest
      else Fail ("argument -h/--help: ignored explicit argument "
                 +:+ repr explicit_arg)
  end.

(** [consume_optional] at an option [t] found in the string [s], followed
    by [rest]: the namespace, the strings left and the extras. *)
Definition consume_optional (s : string) (t : OptionTuple) (rest : list Item)
    (ns : Namespace) (extras : list string)
  : Parse (Namespace * list Item * list string) :=
  match t with
  | (None, _, _) => Done (ns, rest, extras ++ [s])
  | (Some Help, os, Some e) =>
      if String.eqb os "-h" && nonempty e then
        r <~ help_chain e ;; Done (r, extras)
      else Fail ("argument -h/--help: ignored explicit argument " +:+ repr e)
  | (Some Help, _, None) => PrintHelp
  | (Some a, _, Some e) =>
      ns' <~ store a e ns ;; Done (ns', rest, extras)
  | (Some a, _, None) =>
      match rest with
      | (v, A) :: rest' => ns' <~ store a v ns ;; Done (ns', rest', extras)
      | _ => Fail ("argument " +:+ action_name a +:+ ": expected one argument")
      end
  end.

(** One round of the loop that runs while an option string is ahead. *)
Definition step (items : list Item) (ns : Namespace) (extras : list string)
  : Parse (Namespace * list Item * list string) :=
  match items with
  | (s, O t) :: rest => consume_optional s t rest ns extras
  | _ =>
      let '(ns', rest) := consume_positionals (pending ns) ns items in
      if (length rest <? length items)%nat then Done (ns', rest, extras)
      else
        let skipped := take_while (fun it => negb (is_O it)) items in
        match drop_while (fun it => negb (is_O it)) items with
        | (s, O t) :: rest' =>
            consume_optional s t rest' ns (extras ++ map fst skipped)
        | rest' => Done (ns, rest', extras ++ map fst skipped)
        end
  end.

Fixpoint consume (fuel : nat) (items : list Item) (ns : Namespace)
    (extras : list string) : Parse (Namespace * list string) :=
  if existsb is_O items then
    match fuel with
    | 0%nat => Done (ns, extras ++ map fst items)
    | S fuel' =>
        r <~ step items ns extras ;;
        consume fuel' r.1.2 r.1.1 r.2
    end
  else
    let '(ns', rest) := consume_positionals (pending ns) ns items in
    Done (ns', extras ++ map fst rest).

(** [parse_known_args]: the namespace and the strings nothing took. *)
Definition parse_known_args (arg_strings : list string)
  : Parse (Args * list string) :=
  items <~ classify arg_strings ;;
  r <~ consume (length items) items empty_namespace [] ;;
  match ns_positionals r.1 with
  | b :: c :: _ =>
      Done ({| baseline := b; current := c;
               out := ns_out r.1; max_rms := ns_max_rms r.1 |}, r.2)
  | [_] => Fail "the following arguments are required: current"
  | [] => Fail "the following arguments are required: baseline, current"
  end.

Definition parse_args (arg_strings : list string) : Parse Args :=
  r <~ parse_known_args arg_strings ;;
  match r.2 with
  | [] => Done r.1
  | extras => Fail ("unrecognized arguments: " +:+ join " " extras)
  end.

Definition usage (prog : string) : string :=
  "usage: " +:+ prog
  +:+ " [-h] [--out OUT] [--max-rms MAX_RMS] baseline current".

Definition help (prog : string) : list string :=
  [usage prog; ""; "positional arguments:"; "  baseline"; "  current"; "";
   "options:"; "  -h, --help         show this help message and exit";
   "  --out OUT"; "  --max-rms MAX_RMS"].

(** The whole of [main]: [parse_args] on the command line, then the rest.
    A usage error prints the usage and the error to standard error and
    exits 2; a help request prints the help and exits 0. *)
Definition script (w : World) (prog : string) (argv : list string)
  : list Event * Z :=
  match parse_args argv with
  | Done args => main w args
  | PrintHelp => (map Stdout (help prog), 0)
  | Fail msg =>
      ([Stderr (usage prog); Stderr (prog +:+ ": error: " +:+ msg)], 2)
  end.

(** *** Command lines the parser cannot accept *)

Definition not_O (it : Item) : bool := negb (is_O it).

(** Number of arguments among the items. *)
Fixpoint count_A (items : list Item) : nat :=
  match items with
  | [] => 0
  | (_, A) :: rest => S (count_A rest)
  | _ :: rest => count_A rest
  end.



Definition is_help (it : Item) : bool :=
  match it.2 with O (Some Help, _, _) => true | _ => false end.

Definition is_unknown (it : Item) : bool :=
  match it.2 with O (None, _, _) => true | _ => false end.

Definition takes_argument (a : Action) : bool :=
  match a with Help => false | _ => true end.

(** The arguments left for the positionals: every 'A' but the one that
    follows [--out] or [--max-rms] as its value. *)
Fixpoint count_positionals (items : list Item) : nat :=
  match items with
  | [] => 0
  | (_, A) :: rest => S (count_positionals rest)
  | (_, O (Some a, _, None)) :: rest =>
      if takes_argument a then
        match rest with
        | (_, A) :: rest' => count_positionals rest'
        | _ => count_positionals rest
        end
      else count_positionals rest
  | _ :: rest => count_positionals rest
  end.

(** [--max-rms] with a value that [float] rejects. *)
Fixpoint has_non_float (items : list Item) : bool :=
  match items with
  | [] => false
  | (_, O (Some StoreMaxRms, _, Some e)) :: rest =>
      match py_float e with
      | None => true
      | Some _ => has_non_float rest
      end
  | (_, O (Some StoreMaxRms, _, None)) :: rest =>
      match rest with
      | (v, A) :: _ =>
          match py_float v with
          | None => true
          | Some _ => has_non_float rest
          end
      | _ => has_non_float rest
      end
  | _ :: rest => has_non_float rest
  end.





(** What keeps [parse_args] from returning a namespace: a positional that
    no argument is left for, a string nothing took, an unknown option or a
    non-float still ahead. *)
Definition bad (ns : Namespace) (extras : list string) (items : list Item)
  : Prop :=
  (count_positionals items < pending ns)%nat \/ extras <> []
  \/ existsb is_unknown items = true
  \/ has_non_float items = true.

End Parser.

(** A stand-in for [float] on the sample command lines: it reads decimal
    integers and rejects everything else. *)
Definition integer_literal (s : string) : option float :=
  match NilZero.int_of_string s with
  | Some n => Some (Py.float_of_Z (Z.of_int n))
  | None => None
  end.

Definition sample_float (s : string) : option float :=
  match s with
  | String "-" t =>
      if nonempty t && all_digits t then integer_literal s else None
  | _ => if nonempty s && all_digits s then integer_literal s else None
  end.

(** ** Further vocabulary *)

(** The same command line with the two paths exchanged. *)
Definition swapped (args : Args) : Args :=
  {| baseline := current args; current := baseline args;
     out := out args; max_rms := max_rms args |}.

(** A pixel of an 8-bit RGBA image. *)
Definition in_range (p : Pixel) : bool :=
  forallb (fun ch : band => (0 <=? ch p) && (ch p <=? 255)) bands.

(** An image as Pillow holds it: as many pixels as its size says, each
    band within 0..255. *)
Definition well_formed (im : Image) : bool :=
  (Z.of_nat (length (pixels im)) =? (size im).1 * (size im).2)
  && forallb in_range (pixels im).

(** An image without transparency. *)
Definition opaque (im : Image) : bool :=
  forallb (fun p => alpha p =? 255) (pixels im).

(** A string that cannot be taken for an option: it does not start with
    ["-"]. *)
Definition plain (s : string) : bool :=
  match s with
  | String c _ => negb (Ascii.eqb c "-"%char)
  | EmptyString => true
  end.

(** * Properties *)

(** ** Binary64 facts used below *)

Section Binary64.

Local Open Scope float_scope.

Lemma SFleb_trans (x y z : spec_float) :
  SFleb x y = true -> SFleb y z = true -> SFleb x z = true.
Proof.
  unfold SFleb, SFcompare.
  destruct x as [sx|sx| |sx mx ex], y as [sy|sy| |sy my ey],
           z as [sz|sz| |sz mz ez];
    repeat match goal with s : bool |- _ => destruct s end;
    try reflexivity; try discriminate.
  all: fold (Pos.compare mx my); fold (Pos.compare my mz);
       fold (Pos.compare mx mz).
  all: destruct (Z.compare_spec ex ey), (Z.compare_spec ey ez),
                (Z.compare_spec ex ez);
       try lia; try reflexivity; try discriminate.
  all: destruct (Pos.compare_spec mx my), (Pos.compare_spec my mz),
                (Pos.compare_spec mx mz);
       simpl; try lia; try reflexivity; try discriminate.
Qed.

Lemma leb_trans (x y z : float) :
  (x <=? y) = true -> (y <=? z) = true -> (x <=? z) = true.
Proof. rewrite !leb_spec. apply SFleb_trans. Qed.




Lemma eqb_zero_inv (r : float) :
  (r =? 0) = true -> exists s, Prim2SF r = S754_zero s.
Proof.
  rewrite FloatAxioms.eqb_spec. change (Prim2SF 0) with (S754_zero false).
  unfold SFeqb, SFcompare.
  destruct (Prim2SF r) as [s|s| |s m e]; try destruct s;
    try discriminate; eauto.
Qed.

Lemma zero_not_leb_negative (r t : float) :
  (r =? 0) = true -> (t <? 0) = true -> (r <=? t) = false.
Proof.
  intros [s Hr]%eqb_zero_inv. rewrite ltb_spec, leb_spec, Hr.
  change (Prim2SF 0) with (S754_zero false).
  unfold SFltb, SFleb, SFcompare.
  destruct (Prim2SF t) as [st|st| |st m e]; try destruct st;
    try discriminate; reflexivity.
Qed.

Lemma zero_not_positive (r : float) : (r =? 0) = true -> (0 <? r) = false.
Proof.
  intros [s Hr]%eqb_zero_inv. rewrite ltb_spec, Hr. reflexivity.
Qed.

End Binary64.

(** ** The [.4f] format *)


(** ** The difference image and its statistics *)

Lemma size_eqb_eq (s1 s2 : Z * Z) : size_eqb s1 s2 = true <-> s1 = s2.
Proof.
  destruct s1 as [w1 h1], s2 as [w2 h2]. unfold size_eqb. simpl.
  rewrite andb_true_iff, !Z.eqb_eq. split.
  - intros [-> ->]. reflexivity.
  - intros [= -> ->]. split; reflexivity.
Qed.

Lemma sum2_difference (b c : Image) (ch : band) :
  In ch bands ->
  Stat.sum2 (ImageChops.difference b c) ch
  = sum_of_squares (abs_differences b c ch).
Proof.
  intros Hch. unfold Stat.sum2, sum_of_squares, abs_differences,
    ImageChops.difference. simpl.
  generalize (pixels c). induction (pixels b) as [|p ps IH]; intros [|q qs];
    simpl; try reflexivity.
  rewrite IH. f_equal.
  simpl in Hch. destruct Hch as [<-|[<-|[<-|[<-|[]]]]]; reflexivity.
Qed.

Lemma count_difference (b c : Image) (ch : band) :
  Stat.count (ImageChops.difference b c)
  = Z.of_nat (length (abs_differences b c ch)).
Proof.
  unfold Stat.count, abs_differences, ImageChops.difference. simpl.
  f_equal. generalize (pixels c).
  induction (pixels b) as [|p ps IH]; intros [|q qs]; simpl; try reflexivity.
  f_equal. apply IH.
Qed.

Lemma channel_rms_eq (b c : Image) (ch : band) :
  In ch bands ->
  PrimFloat.sqrt
    (Py.float_of_Z (Stat.sum2 (ImageChops.difference b c) ch)
     / Py.float_of_Z (Stat.count (ImageChops.difference b c)))
  = channel_rms b c ch.
Proof.
  intros Hch. unfold channel_rms, root_mean_square.
  rewrite (sum2_difference b c ch Hch), (count_difference b c ch).
  reflexivity.
Qed.

(** Equal pixels leave nothing in any band of the difference. *)
Lemma sum_of_squares_same (b c : Image) (ch : band) :
  pixels b = pixels c -> sum_of_squares (abs_differences b c ch) = 0.
Proof.
  unfold sum_of_squares, abs_differences. intros <-.
  induction (pixels b) as [|p ps IH]; simpl; [reflexivity|].
  rewrite IH, Z.sub_diag. reflexivity.
Qed.

Lemma channel_rms_same (b c : Image) (ch : band) :
  pixels b = pixels c ->
  channel_rms b c ch
  = PrimFloat.sqrt
      (0 / Py.float_of_Z (Stat.count (ImageChops.difference b c)))%float.
Proof.
  intros Hsame. unfold channel_rms, root_mean_square.
  rewrite (sum_of_squares_same b c ch Hsame), <- (count_difference b c ch).
  reflexivity.
Qed.


(** ** The paths of [main] *)

Lemma main_compares (w : World) (args : Args) (b c : Image) :
  loads w args b c -> size b = size c ->
  main w args =
    let diff := ImageChops.difference b c in
    let r := rms b c in
    let t := if (0 <? r)%float then [Save (out args) diff] else [] in
    if (r <=? max_rms args)%float then (t, 0)
    else (t ++ [Stdout (differ_message r args)], 1).
Proof.
  intros (Hp & Hb & Hc) Hsize.
  unfold main, open_images, open_rgba. rewrite Hp, Hb, Hc. simpl.
  rewrite (proj2 (size_eqb_eq _ _) Hsize). reflexivity.
Qed.

Lemma main_size_mismatch (w : World) (args : Args) (b c : Image) :
  loads w args b c -> size b <> size c ->
  main w args =
    ([Stderr ("Different sizes: " +:+ Py.str_pair (size b)
              +:+ " vs " +:+ Py.str_pair (size c))], 1).
Proof.
  intros (Hp & Hb & Hc) Hsize.
  unfold main, open_images, open_rgba. rewrite Hp, Hb, Hc. simpl.
  destruct (size_eqb (size b) (size c)) eqn:E; [|reflexivity].
  apply size_eqb_eq in E. contradiction.
Qed.

(** ** Decision on two images of one size *)


Lemma sample_loads_red_blue (t : float) :
  loads sample_world (compare "baseline.png" "current.png" t)
        solid_red_2x2 solid_blue_2x2.
Proof. repeat split; reflexivity. Defined.

Lemma sample_loads_red_red (t : float) :
  loads sample_world (compare "baseline.png" "baseline.png" t)
        solid_red_2x2 solid_red_2x2.
Proof. repeat split; reflexivity. Defined.

Lemma sample_loads_small_large (t : float) :
  loads sample_world (compare "small.png" "large.png" t)
        grey_10x10 grey_20x20.
Proof. repeat split; reflexivity. Defined.


(** ** The aggregate RMS *)


(** ** Images of different sizes *)

(** C3: when both images load and their (width, height) pairs differ, the
    run, whatever [max_rms] is, writes the single line
    "Different sizes: (w1, h1) vs (w2, h2)" to standard error, nothing to
    standard output, saves no file and exits 1; the pixels play no part. *)
Theorem different_sizes (w : World) (args : Args) (b c : Image) :
  loads w args b c -> size b <> size c ->
  exit_code w args = 1
  /\ stderr (trace w args) =
       ["Different sizes: " +:+ Py.str_pair (size b)
        +:+ " vs " +:+ Py.str_pair (size c)]
  /\ stdout (trace w args) = []
  /\ saved (trace w args) = []
  /\ files_after (files w) (trace w args) = files w.
Proof.
  intros Hl Hs. unfold exit_code, trace.
  rewrite (main_size_mismatch w args b c Hl Hs).
  repeat split; reflexivity.
Qed.

Lemma different_sizes_witness :
  let args := compare "small.png" "large.png" 1000 in
  exit_code sample_world args = 1
  /\ stderr (trace sample_world args) =
       ["Different sizes: (10, 10) vs (20, 20)"]
  /\ stdout (trace sample_world args) = []
  /\ saved (trace sample_world args) = []
  /\ files_after (files sample_world) (trace sample_world args)
     = files sample_world.
Proof.
  apply (different_sizes sample_world
           (compare "small.png" "large.png" 1000)
           grey_10x10 grey_20x20 (sample_loads_small_large 1000)).
  discriminate.
Defined.

(** ** Saving the difference image *)



(** ** The error class *)

Ltac main_cases w args :=
  unfold exit_code, trace, lines_written, main, cannot_open, open_images,
    open_rgba;
  destruct (pillow_installed w);
  destruct (files w !! baseline args) as [[b|excb]|];
  destruct (files w !! current args) as [[c|excc]|]; simpl;
  try destruct (size_eqb (size b) (size c)); simpl.

(** C5: the run exits 2 exactly when Pillow cannot be imported or one of
    the two input files cannot be opened and converted; it then writes one
    line to standard error, naming the missing dependency or carrying the
    text of the exception, and nothing else. *)
Theorem exit_2_iff_error (w : World) (args : Args) :
  (exit_code w args = 2
   <-> pillow_installed w = false
       \/ cannot_open w (baseline args) \/ cannot_open w (current args))
  /\ (exit_code w args = 2 ->
      exists line,
        trace w args = [Stderr line]
        /\ (line = "Pillow is required. Install with: pip install pillow"
            \/ exists exc, open_images w args = Raise exc
                           /\ line = "Failed to read images: " +:+ exc)).
Proof.
  main_cases w args;
    try destruct (_ <=? max_rms args)%float; simpl; split;
    try (split; [ discriminate
                | intros [H|[[e H]|[e H]]]; discriminate ]);
    try discriminate;
    try (split; [ intros _; eauto | reflexivity ]);
    try (intros _; eexists; split; [reflexivity|]; eauto).
Qed.

(** ** The threshold *)

(** C6: for a fixed world and fixed paths the outcome is monotone in the
    threshold: a run that exits 0 at [t] exits 0 at every [t'] with
    [t <= t'], and a run that exits 1 at [t'] already exits 1 at [t]. *)
Theorem raising_threshold_monotone (w : World) (args : Args) (t t' : float) :
  (t <=? t')%float = true ->
  (exit_code w (with_max_rms args t) = 0 ->
   exit_code w (with_max_rms args t') = 0)
  /\ (exit_code w (with_max_rms args t') = 1 ->
      exit_code w (with_max_rms args t) = 1).
Proof.
  intros Htt.
  unfold exit_code, main, open_images, open_rgba, with_max_rms.
  cbn [baseline current out max_rms].
  destruct (pillow_installed w);
  destruct (files w !! baseline args) as [[b|excb]|];
  destruct (files w !! current args) as [[c|excc]|]; simpl;
  try destruct (size_eqb (size b) (size c)); simpl;
  try (split; intros; (reflexivity || discriminate || assumption)).
  destruct (_ <=? t)%float eqn:Et.
  - rewrite (leb_trans _ _ _ Et Htt). simpl. split; [reflexivity|discriminate].
  - simpl. split; [discriminate|reflexivity].
Qed.

Lemma raising_threshold_monotone_witness :
  let args := compare "baseline.png" "current.png" 0 in
  (exit_code sample_world (with_max_rms args 200) = 0 ->
   exit_code sample_world (with_max_rms args 1000) = 0)
  /\ (exit_code sample_world (with_max_rms args 1000) = 1 ->
      exit_code sample_world (with_max_rms args 200) = 1).
Proof.
  exact (raising_threshold_monotone sample_world
           (compare "baseline.png" "current.png" 0) 200 1000 eq_refl).
Defined.

(** ** Lines written *)



(** ** Determinism *)



(** ** A negative threshold *)

(** C9: with a strictly negative [max_rms] and two images of one size
    whose aggregate RMS is zero, the run exits 1 and its line on standard
    output ends in "Wrote <out>", yet nothing was saved and the file
    system is as it was. *)
Theorem negative_threshold_zero_rms (w : World) (args : Args) (b c : Image) :
  loads w args b c -> size b = size c ->
  (rms b c =? 0)%float = true -> (max_rms args <? 0)%float = true ->
  exit_code w args = 1
  /\ stdout (trace w args) =
       ["Images differ (RMS=" +:+ Py.format_4f (rms b c)
        +:+ ", threshold=" +:+ Py.format_4f (max_rms args)
        +:+ "). Wrote " +:+ out args]
  /\ saved (trace w args) = []
  /\ files_after (files w) (trace w args) = files w.
Proof.
  intros Hl Hs Hr Ht. unfold exit_code, trace.
  rewrite (main_compares w args b c Hl Hs). cbv zeta.
  rewrite (zero_not_positive _ Hr), (zero_not_leb_negative _ _ Hr Ht).
  repeat split; reflexivity.
Qed.

Lemma negative_threshold_zero_rms_witness :
  let args := compare "baseline.png" "baseline.png" (-1) in
  exit_code sample_world args = 1
  /\ stdout (trace sample_world args) =
       ["Images differ (RMS=0.0000, threshold=-1.0000). Wrote diff.png"]
  /\ saved (trace sample_world args) = []
  /\ files_after (files sample_world) (trace sample_world args)
     = files sample_world.
Proof.
  exact (negative_threshold_zero_rms sample_world
           (compare "baseline.png" "baseline.png" (-1))
           solid_red_2x2 solid_red_2x2
           (sample_loads_red_red (-1)) eq_refl eq_refl eq_refl).
Defined.

(** ** The command line *)

Section ParserProperties.

Variable py_float : string -> option float.

Lemma count_A_app (l1 l2 : list Item) :
  count_A (l1 ++ l2) = (count_A l1 + count_A l2)%nat.
Proof.
  induction l1 as [|[s [| |t]] l1 IH]; simpl; auto.
Qed.

Lemma take_drop_while {X} (f : X -> bool) (l : list X) :
  l = take_while f l ++ drop_while f l.
Proof.
  induction l as [|x l IH]; simpl; [reflexivity|].
  destruct (f x); simpl; [f_equal; exact IH | reflexivity].
Qed.

Lemma take_while_forall {X} (f : X -> bool) (l : list X) :
  forallb f (take_while f l) = true.
Proof.
  induction l as [|x l IH]; simpl; [reflexivity|].
  destruct (f x) eqn:E; simpl; [rewrite E; exact IH | reflexivity].
Qed.

Lemma dashes_not_O (l : list Item) :
  forallb is_Dash l = true -> forallb not_O l = true /\ count_A l = 0%nat.
Proof.
  induction l as [|[s [| |t]] l IH]; simpl; try discriminate; auto.
Qed.

(** What a run of arguments and "--" in front of a command line adds. *)
Lemma count_positionals_app (pre rest : list Item) :
  forallb not_O pre = true ->
  count_positionals (pre ++ rest)
  = (count_A pre + count_positionals rest)%nat.
Proof.
  induction pre as [|[s [| |t]] pre IH]; simpl; intros H;
    try discriminate; try reflexivity.
  - f_equal. apply IH, H.
  - apply IH, H.
Qed.

Lemma existsb_app_not_O (f : Item -> bool) (pre rest : list Item) :
  (forall it, is_O it = false -> f it = false) ->
  forallb not_O pre = true ->
  existsb f (pre ++ rest) = existsb f rest.
Proof.
  intros Hf. induction pre as [|it pre IH]; simpl; intros H; [reflexivity|].
  apply andb_true_iff in H as [H1 H2].
  rewrite (Hf it), (IH H2); [reflexivity|].
  unfold not_O in H1. destruct (is_O it); [discriminate|reflexivity].
Qed.

Lemma has_non_float_app (pre rest : list Item) :
  forallb not_O pre = true ->
  has_non_float py_float (pre ++ rest) = has_non_float py_float rest.
Proof.
  induction pre as [|[s [| |t]] pre IH]; simpl; intros H;
    try discriminate; auto.
Qed.

Lemma is_unknown_O (it : Item) : is_O it = false -> is_unknown it = false.
Proof.
  destruct it as [s [| |t]]; simpl; [reflexivity|reflexivity|discriminate].
Qed.

Lemma is_help_O (it : Item) : is_O it = false -> is_help it = false.
Proof.
  destruct it as [s [| |t]]; simpl; [reflexivity|reflexivity|discriminate].
Qed.

Lemma match_positional_split (items rest : list Item) (v : string) :
  match_positional items = Some (v, rest) ->
  exists pre, items = pre ++ rest /\ forallb not_O pre = true
              /\ count_A pre = 1%nat.
Proof.
  unfold match_positional. intros H.
  assert (E1 := take_drop_while is_Dash items).
  assert (D1 := dashes_not_O _ (take_while_forall is_Dash items)).
  destruct (drop_while is_Dash items) as [|[s [| |t]] rest1]; try discriminate.
  injection H as <- <-.
  assert (E2 := take_drop_while is_Dash rest1).
  assert (D2 := dashes_not_O _ (take_while_forall is_Dash rest1)).
  exists (take_while is_Dash items ++ (s, A) :: take_while is_Dash rest1).
  destruct D1 as [D1 C1], D2 as [D2 C2]. split; [|split].
  - rewrite <- app_assoc. simpl. rewrite <- E2. exact E1.
  - rewrite forallb_app, D1. simpl. exact D2.
  - rewrite count_A_app, C1. simpl. rewrite C2. reflexivity.
Qed.

Lemma pending_set_positional (ns : Namespace) (v : string) :
  (0 < pending ns)%nat ->
  pending ns = S (pending (set_positional ns v)).
Proof.
  unfold pending, set_positional. simpl. rewrite length_app. simpl. lia.
Qed.

Lemma consume_positionals_split (n : nat) :
  forall ns items ns' rest,
    consume_positionals n ns items = (ns', rest) ->
    (n <= pending ns)%nat ->
    exists pre, items = pre ++ rest /\ forallb not_O pre = true
                /\ pending ns = (count_A pre + pending ns')%nat.
Proof.
  induction n as [|n IH]; simpl; intros ns items ns' rest H Hn.
  - injection H as <- <-. exists []. repeat split.
  - destruct (match_positional items) as [[v rest1]|] eqn:M.
    + apply match_positional_split in M as (pre1 & -> & N1 & C1).
      assert (Hp := pending_set_positional ns v ltac:(lia)).
      apply IH in H as (pre2 & -> & N2 & C2); [|lia].
      exists (pre1 ++ pre2). split; [|split].
      * rewrite app_assoc. reflexivity.
      * rewrite forallb_app, N1, N2. reflexivity.
      * rewrite count_A_app. lia.
    + injection H as <- <-. exists []. repeat split.
Qed.

Lemma help_chain_stops (e : string) :
  match help_chain e with Done _ => False | _ => True end.
Proof.
  induction e as [|c e IH]; simpl; [exact I|].
  destruct (Ascii.eqb c "h"); [exact IH | exact I].
Qed.

Lemma app_not_nil {X} (l1 l2 : list X) : l1 <> [] \/ l2 <> [] -> l1 ++ l2 <> [].
Proof.
  destruct l1; simpl; [|discriminate]. intros [H|H]; [contradiction|exact H].
Qed.

Lemma consume_optional_spec (s : string) (t : OptionTuple) (rest : list Item)
    (ns : Namespace) (extras : list string) :
  match consume_optional py_float s t rest ns extras with
  | Done (ns', rest', extras') =>
      (length rest' <= length rest)%nat
      /\ (existsb is_help rest' = true -> existsb is_help rest = true)
      /\ (extras <> [] -> extras' <> [])
      /\ (bad py_float ns extras ((s, O t) :: rest) ->
          bad py_float ns' extras' rest')
  | PrintHelp => is_help (s, O t) = true
  | Fail _ => True
  end.
Proof.
  destruct t as [[[[| |]|] os] [e|]]; simpl.
  - (* -h with an argument *)
    destruct (String.eqb os "-h" && nonempty e); [|exact I].
    assert (H := help_chain_stops e).
    destruct (help_chain e); simpl; [contradiction|reflexivity|exact I].
  - reflexivity.
  - (* --out=e *)
    repeat split; auto.
  - (* --out v *)
    destruct rest as [|[v [| |t]] rest']; try exact I. simpl.
    repeat split; auto; lia.
  - (* --max-rms=e *)
    unfold bad. simpl. destruct (py_float e); simpl; [|exact I].
    repeat split; auto.
  - (* --max-rms v *)
    destruct rest as [|[v [| |t]] rest']; try exact I.
    unfold bad. simpl. destruct (py_float v); simpl; [|exact I].
    repeat split; auto; lia.
  - (* an unknown option, with or without "=" *)
    repeat split; auto.
    + intros _. apply app_not_nil. right. discriminate.
    + intros _. right. left. apply app_not_nil. right. discriminate.
  - repeat split; auto.
    + intros _. apply app_not_nil. right. discriminate.
    + intros _. right. left. apply app_not_nil. right. discriminate.
Qed.

Lemma drop_while_not_O (items : list Item) :
  existsb is_O items = true ->
  exists s t rest, drop_while not_O items = (s, O t) :: rest.
Proof.
  induction items as [|[s [| |t]] items IH]; simpl; try discriminate; eauto.
Qed.

Lemma step_spec (items : list Item) (ns : Namespace) (extras : list string) :
  existsb is_O items = true ->
  match step py_float items ns extras with
  | Done (ns', rest, extras') =>
      (length rest < length items)%nat
      /\ (existsb is_help rest = true -> existsb is_help items = true)
      /\ (bad py_float ns extras items -> bad py_float ns' extras' rest)
  | PrintHelp => existsb is_help items = true
  | Fail _ => True
  end.
Proof.
  intros HO. unfold step.
  destruct items as [|[s p] items']; [discriminate|].
  assert (Hopt : forall t rest,
    (s, p) :: items' = (s, O t) :: rest ->
    match consume_optional py_float s t rest ns extras with
    | Done (ns', rest', extras') =>
        (length rest' < length ((s, p) :: items'))%nat
        /\ (existsb is_help rest' = true ->
            existsb is_help ((s, p) :: items') = true)
        /\ (bad py_float ns extras ((s, p) :: items') ->
            bad py_float ns' extras' rest')
    | PrintHelp => existsb is_help ((s, p) :: items') = true
    | Fail _ => True
    end).
  { intros t rest E. injection E as -> <-.
    assert (H := consume_optional_spec s t items' ns extras).
    destruct (consume_optional py_float s t items' ns extras)
      as [[[ns' rest'] extras']| |]; [| |exact I].
    - destruct H as (Hl & Hh & _ & Hb). repeat split; auto.
      + apply Nat.lt_succ_r, Hl.
      + intros H. simpl. rewrite (Hh H). apply orb_true_r.
    - simpl. rewrite H. reflexivity. }
  destruct p as [| |t]; [| |exact (Hopt t items' eq_refl)].
  all: clear Hopt.
  all: destruct (consume_positionals (pending ns) ns _) as [ns' rest] eqn:C.
  all: assert (Hsplit := consume_positionals_split _ _ _ _ _ C (Nat.le_refl _)).
  all: destruct Hsplit as (pre & E & Npre & Cpre).
  all: remember (_ :: items') as items eqn:Eitems.
  all: destruct (length rest <? length items)%nat eqn:L.
  1,3: apply Nat.ltb_lt in L; split; [exact L|]; rewrite E; split;
       [ rewrite (existsb_app_not_O is_help pre rest is_help_O Npre); auto
       | unfold bad;
         rewrite (count_positionals_app pre rest Npre),
                 (existsb_app_not_O is_unknown pre rest is_unknown_O Npre),
                 (has_non_float_app pre rest Npre);
         intros [H|[H|[H|H]]]; auto; left; lia ].
  all: destruct (drop_while_not_O items HO) as (s' & t' & rest' & D).
  all: fold not_O; rewrite D.
  all: assert (Esplit := take_drop_while not_O items); rewrite D in Esplit.
  all: assert (Nskip := take_while_forall not_O items).
  all: assert (Hskip : take_while not_O items <> [])
         by (rewrite Eitems; simpl; discriminate).
  all: assert (H := consume_optional_spec s' t' rest' ns
                      (extras ++ map fst (take_while not_O items))).
  all: destruct (consume_optional py_float s' t' rest' ns _)
         as [[[ns2 rest2] extras2]| |]; [| |exact I].
  1,3: destruct H as (Hl & Hh & He & _);
       assert (Hlen : length items
                      = (length (take_while not_O items)
                         + S (length rest'))%nat)
         by (rewrite Esplit at 1; rewrite length_app; reflexivity);
       split; [unfold Item in *; lia|]; split;
       [ intros Hr; rewrite Esplit,
           (existsb_app_not_O is_help _ _ is_help_O Nskip); simpl;
         rewrite (Hh Hr); apply orb_true_r
       | intros _; right; left; apply He, app_not_nil; right;
         destruct (take_while not_O items); [contradiction|discriminate] ].
  all: rewrite Esplit, (existsb_app_not_O is_help _ _ is_help_O Nskip);
       simpl; simpl in H; rewrite H; reflexivity.
Qed.







(** The loop is given as many rounds as there are strings; more rounds
    change nothing, as each round takes at least one string. *)
Lemma consume_fuel (fuel1 : nat) :
  forall fuel2 items ns extras,
    (length items <= fuel1)%nat -> (length items <= fuel2)%nat ->
    consume py_float fuel1 items ns extras
    = consume py_float fuel2 items ns extras.
Proof.
  induction fuel1 as [|fuel1 IH]; intros [|fuel2] items ns extras H1 H2.
  all: unfold consume; fold (consume py_float).
  all: destruct (existsb is_O items) eqn:HO; try reflexivity.
  all: try (destruct items; [discriminate | simpl in H1, H2; lia]).
  assert (S := step_spec items ns extras HO).
  destruct (step py_float items ns extras) as [[[ns1 rest1] extras1]| |];
    simpl; try reflexivity.
  destruct S as (Hl & _). apply IH; unfold Item in *; lia.
Qed.


End ParserProperties.



(** A well-formed command line reaches the body of [main] with the parsed
    namespace; an abbreviated option and a value joined by ["="] are read
    as the parser documents. *)
Example script_parses :
  script sample_float sample_world "imgdiff.py"
    ["baseline.png"; "--max=200"; "current.png"; "--o"; "d.png"]
  = main sample_world
      {| baseline := "baseline.png"; current := "current.png";
         out := "d.png"; max_rms := 200 |}.
Proof. reflexivity. Qed.

(** * Further properties of the script *)

(** ** The sign of the RMS *)

Section Binary64Order.

Local Open Scope float_scope.

(** A square root is a zero, a positive number, plus infinity or a nan. *)
Lemma sqrt_cases (x : float) :
  match Prim2SF (sqrt x) with
  | S754_zero _ | S754_infinity false | S754_finite false _ _ | S754_nan =>
      True
  | _ => False
  end.
Proof.
  rewrite sqrt_spec. unfold SF64sqrt, SFsqrt.
  destruct (Prim2SF x) as [s|[|]| |[|] m e]; try exact I.
  destruct (SFsqrt_core_binary prec emax (Z.pos m) e) as [[mz ez] lz].
  unfold binary_round_aux.
  destruct (shr_fexp _ _ _ _ _) as [mrs' e'].
  destruct (shr_fexp _ _ _ _ _) as [mrs'' e''].
  destruct (shr_m mrs''); try exact I.
  destruct (_ <=? _)%Z; exact I.
Qed.


Lemma sqrt_leb_zero (x : float) : (sqrt x <=? 0) = (sqrt x =? 0).
Proof.
  assert (H := sqrt_cases x). rewrite leb_spec, FloatAxioms.eqb_spec.
  change (Prim2SF 0) with (S754_zero false).
  unfold SFeqb, SFleb, SFcompare.
  destruct (Prim2SF (sqrt x)) as [s|[|]| |[|] m e]; try contradiction;
    reflexivity.
Qed.


Lemma zero_leb_nonnegative (r t : float) :
  (r =? 0) = true -> (0 <=? t) = true -> (r <=? t) = true.
Proof.
  intros [s Hr]%eqb_zero_inv. rewrite !leb_spec, Hr.
  change (Prim2SF 0) with (S754_zero false).
  unfold SFleb, SFcompare.
  destruct (Prim2SF t) as [st|[|]| |[|] mt et]; try discriminate;
    reflexivity.
Qed.


(** Zero divided by a positive float is the positive zero. *)
Lemma zero_div_positive (y : float) : (0 <? y) = true -> 0 / y = 0.
Proof.
  intros H. apply Prim2SF_inj. rewrite div_spec. rewrite ltb_spec in H.
  change (Prim2SF 0) with (S754_zero false) in *.
  unfold SFltb, SFcompare in H. unfold SF64div, SFdiv.
  destruct (Prim2SF y) as [s|[|]| |[|] m e]; try discriminate; reflexivity.
Qed.

End Binary64Order.

Lemma rms_is_sqrt (b c : Image) : exists x, rms b c = PrimFloat.sqrt x.
Proof. unfold rms, rms_of, Py.pow_half. eexists. reflexivity. Qed.

(** ** Thresholds *)



(** At the default threshold 0.0 the comparison is strict: the run exits
    0 exactly when the aggregate RMS is zero, and then it has saved and
    printed nothing. *)
Theorem default_threshold_is_strict (w : World) (args : Args) (b c : Image) :
  loads w args b c -> size b = size c ->
  max_rms args = default_max_rms ->
  (exit_code w args = 0 <-> (rms b c =? 0)%float = true)
  /\ (exit_code w args = 0 -> trace w args = []).
Proof.
  intros Hl Hs Ht. unfold exit_code, trace.
  rewrite (main_compares w args b c Hl Hs). cbv zeta.
  rewrite Ht. unfold default_max_rms.
  destruct (rms_is_sqrt b c) as [x ->].
  rewrite sqrt_leb_zero.
  destruct (PrimFloat.sqrt x =? 0)%float eqn:E; simpl.
  - rewrite (zero_not_positive _ E). repeat split; reflexivity.
  - repeat split; discriminate.
Qed.

Lemma default_threshold_is_strict_witness :
  let args := compare "baseline.png" "current.png" 0 in
  (exit_code sample_world args = 0
   <-> (rms solid_red_2x2 solid_blue_2x2 =? 0)%float = true)
  /\ (exit_code sample_world args = 0 -> trace sample_world args = []).
Proof.
  exact (default_threshold_is_strict sample_world
           (compare "baseline.png" "current.png" 0)
           solid_red_2x2 solid_blue_2x2
           (sample_loads_red_blue 0) eq_refl eq_refl).
Defined.





(** ** A file against itself *)

Lemma count_same (b c : Image) :
  pixels b = pixels c ->
  Stat.count (ImageChops.difference b c) = Z.of_nat (length (pixels b)).
Proof.
  unfold Stat.count, ImageChops.difference. simpl. intros <-. f_equal.
  induction (pixels b) as [|p ps IH]; simpl; [reflexivity | f_equal; exact IH].
Qed.

(** Two images with the same pixels have an aggregate RMS of exactly
    [0.0] (the pixel count, at least 1 for an opened image, turns into a
    positive float), so at every threshold that is not negative the run
    exits 0, prints nothing and saves nothing. *)
Theorem same_pixels_pass (w : World) (args : Args) (b c : Image) :
  loads w args b c -> size b = size c ->
  pixels b = pixels c ->
  (0 <? Py.float_of_Z (Z.of_nat (length (pixels b))))%float = true ->
  (0 <=? max_rms args)%float = true ->
  rms b c = 0%float /\ main w args = ([], 0).
Proof.
  intros Hl Hs Hsame Hcount Ht.
  assert (Hr : rms b c = 0%float).
  { unfold rms, rms_of, Stat.rms, bands. simpl map.
    rewrite !channel_rms_eq by (simpl; tauto).
    rewrite !(channel_rms_same b c _ Hsame), (count_same b c Hsame).
    rewrite (zero_div_positive _ Hcount). reflexivity. }
  split; [exact Hr|].
  rewrite (main_compares w args b c Hl Hs). cbv zeta. rewrite Hr.
  rewrite (zero_leb_nonnegative 0 _ eq_refl Ht). reflexivity.
Qed.

Lemma same_pixels_pass_witness :
  rms solid_red_2x2 solid_red_2x2 = 0%float
  /\ main sample_world (compare "baseline.png" "baseline.png" 3) = ([], 0).
Proof.
  exact (same_pixels_pass sample_world
           (compare "baseline.png" "baseline.png" 3)
           solid_red_2x2 solid_red_2x2
           (sample_loads_red_red 3) eq_refl eq_refl eq_refl eq_refl).
Defined.

(** ** Exchanging the two paths *)

Lemma difference_pixel_comm (p q : Pixel) :
  ImageChops.difference_pixel p q = ImageChops.difference_pixel q p.
Proof.
  unfold ImageChops.difference_pixel. f_equal; lia.
Qed.

Lemma difference_pixels_comm (b c : Image) :
  pixels (ImageChops.difference b c) = pixels (ImageChops.difference c b).
Proof.
  unfold ImageChops.difference. simpl. generalize (pixels c).
  induction (pixels b) as [|p ps IH]; intros [|q qs]; simpl;
    try reflexivity.
  rewrite difference_pixel_comm, IH. reflexivity.
Qed.

Lemma rms_of_pixels (d1 d2 : Image) :
  pixels d1 = pixels d2 -> rms_of d1 = rms_of d2.
Proof.
  intros H. unfold rms_of, Stat.rms, Stat.sum2, Stat.count. rewrite H.
  reflexivity.
Qed.

Lemma size_eqb_sym (s1 s2 : Z * Z) : size_eqb s1 s2 = size_eqb s2 s1.
Proof.
  unfold size_eqb. rewrite (Z.eqb_sym s1.1), (Z.eqb_sym s1.2). reflexivity.
Qed.

(** The comparison does not depend on which image is called the baseline:
    with the two paths exchanged the RMS, the exit status, the line on
    standard output and the saved difference image are the same. *)
Theorem exchange_paths (w : World) (args : Args) :
  exit_code w (swapped args) = exit_code w args
  /\ stdout (trace w (swapped args)) = stdout (trace w args)
  /\ saved (trace w (swapped args)) = saved (trace w args)
  /\ (forall b c, rms c b = rms b c).
Proof.
  assert (Hrms : forall b c, rms c b = rms b c).
  { intros b c. unfold rms. apply rms_of_pixels, difference_pixels_comm. }
  split; [|split; [|split]]; [| | |exact Hrms].
  all: unfold exit_code, trace, main, open_images, open_rgba, swapped.
  all: cbn [baseline current out max_rms].
  all: destruct (pillow_installed w); simpl; try reflexivity.
  all: destruct (files w !! baseline args) as [[b|excb]|];
       destruct (files w !! current args) as [[c|excc]|]; simpl;
       try reflexivity.
  all: rewrite (size_eqb_sym (size c) (size b)).
  all: destruct (size_eqb (size b) (size c)) eqn:Es; simpl; try reflexivity.
  all: apply size_eqb_eq in Es.
  all: fold (rms c b); fold (rms b c); rewrite (Hrms b c).
  all: assert (Hd : ImageChops.difference c b = ImageChops.difference b c)
        by (pose proof (difference_pixels_comm c b) as Hp;
            unfold ImageChops.difference in *; simpl in Hp;
            rewrite Hp, Es; reflexivity).
  all: rewrite Hd.
  all: destruct (rms b c <=? max_rms args)%float, (0 <? rms b c)%float;
       reflexivity.
Qed.

(** ** What the run leaves on disk *)

(** The only path a run ever writes is [out]: every other file is after
    the run what it was before, the two inputs included; and whatever was
    saved is what [out] then holds, as a decodable image. *)
Theorem writes_only_out (w : World) (args : Args) :
  (forall p, p <> out args ->
     files_after (files w) (trace w args) !! p = files w !! p)
  /\ (forall p im, In (p, im) (saved (trace w args)) ->
        p = out args
        /\ files_after (files w) (trace w args) !! out args
           = Some (ImageFile im)).
Proof.
  unfold trace, main.
  destruct (pillow_installed w); simpl;
    [|split; [reflexivity | intros p im []]].
  destruct (open_images w args) as [[b c]|exc]; simpl;
    [|split; [reflexivity | intros p im []]].
  destruct (size_eqb (size b) (size c)); simpl;
    [|split; [reflexivity | intros p im []]].
  destruct (rms_of _ <=? max_rms args)%float, (0 <? rms_of _)%float; simpl.
  all: split;
    [ intros p Hp; try reflexivity; apply lookup_insert_ne; congruence
    | intros p im H;
      first [ contradiction
            | destruct H as [[= <- <-]|[]]; split;
              [reflexivity | apply lookup_insert_eq] ] ].
Qed.

(** ** Which failure is reported *)

(** When the baseline cannot be opened the current path is never looked
    at: the run is the same whatever file, readable or not, is put there,
    and its one line carries the baseline's exception. *)
Theorem baseline_failure_hides_current (w : World) (args : Args)
    (exc : string) (f : File) :
  pillow_installed w = true ->
  open_rgba w (baseline args) = Raise exc ->
  current args <> baseline args ->
  main {| pillow_installed := true;
          files := <[current args := f]> (files w) |} args
  = main w args
  /\ main w args = ([Stderr ("Failed to read images: " +:+ exc)], 2).
Proof.
  intros Hp Hb Hne.
  assert (H : main w args = ([Stderr ("Failed to read images: " +:+ exc)], 2)).
  { unfold main, open_images. rewrite Hp, Hb. reflexivity. }
  split; [|exact H]. rewrite H.
  unfold main, open_images, open_rgba in *. simpl.
  rewrite lookup_insert_ne by exact Hne.
  destruct (files w !! baseline args) as [[b|e]|]; simpl in *;
    congruence.
Qed.

Lemma baseline_failure_hides_current_witness :
  let args := compare "notes.txt" "missing.png" 0 in
  main {| pillow_installed := true;
          files := <["missing.png" := ImageFile grey_10x10]>
                     (files sample_world) |} args
  = main sample_world args
  /\ main sample_world args
     = ([Stderr ("Failed to read images: "
                 +:+ "cannot identify image file 'notes.txt'")], 2).
Proof.
  apply (baseline_failure_hides_current sample_world
           (compare "notes.txt" "missing.png" 0)
           "cannot identify image file 'notes.txt'"
           (ImageFile grey_10x10)); [reflexivity | reflexivity | discriminate].
Defined.

(** ** The difference image *)

Lemma forallb_zip_with {X} (f : X -> X -> X) (P Q : X -> bool) :
  (forall x y, P x = true -> P y = true -> Q (f x y) = true) ->
  forall l1 l2,
    forallb P l1 = true -> forallb P l2 = true ->
    forallb Q (zip_with f l1 l2) = true.
Proof.
  intros Hf. induction l1 as [|x l1 IH]; intros [|y l2] H1 H2; simpl;
    try reflexivity.
  simpl in H1, H2. apply andb_true_iff in H1 as [Hx H1].
  apply andb_true_iff in H2 as [Hy H2].
  rewrite (Hf x y Hx Hy), (IH l2 H1 H2). reflexivity.
Qed.

(** The difference of two opaque images is fully transparent: its alpha
    band, the difference of two bands at 255, is 0 at every pixel. *)
Theorem opaque_difference_is_transparent (b c : Image) :
  opaque b = true -> opaque c = true ->
  forallb (fun p => alpha p =? 0) (pixels (ImageChops.difference b c)) = true.
Proof.
  unfold opaque, ImageChops.difference. simpl.
  apply forallb_zip_with. intros p q Hp Hq.
  apply Z.eqb_eq in Hp, Hq. apply Z.eqb_eq. simpl. lia.
Qed.

Lemma opaque_difference_is_transparent_witness :
  forallb (fun p => alpha p =? 0)
    (pixels (ImageChops.difference solid_red_2x2 solid_blue_2x2)) = true.
Proof.
  apply (opaque_difference_is_transparent solid_red_2x2 solid_blue_2x2);
    reflexivity.
Defined.

Lemma length_zip_with_same {X Y} (f : X -> X -> Y) (l1 l2 : list X) :
  length l1 = length l2 -> length (zip_with f l1 l2) = length l1.
Proof.
  revert l2. induction l1 as [|x l1 IH]; intros [|y l2] H; simpl in *;
    try discriminate; [reflexivity|].
  f_equal. apply IH. congruence.
Qed.

Lemma in_range_difference (p q : Pixel) :
  in_range p = true -> in_range q = true ->
  in_range (ImageChops.difference_pixel p q) = true.
Proof.
  unfold in_range, bands. simpl. rewrite !andb_true_r.
  rewrite !andb_true_iff, !Z.leb_le. intros Hp Hq.
  repeat split; lia.
Qed.

(** The difference of two well-formed images of one size is a well-formed
    image of that size: as many pixels, every band again within 0..255. *)
Theorem difference_well_formed (b c : Image) :
  well_formed b = true -> well_formed c = true -> size b = size c ->
  well_formed (ImageChops.difference b c) = true
  /\ size (ImageChops.difference b c) = size b
  /\ length (pixels (ImageChops.difference b c)) = length (pixels b).
Proof.
  unfold well_formed. intros Hb Hc Hs.
  apply andb_true_iff in Hb as [Lb Rb]. apply andb_true_iff in Hc as [Lc Rc].
  apply Z.eqb_eq in Lb, Lc.
  assert (Hlen : length (pixels b) = length (pixels c))
    by (rewrite <- Hs in Lc; lia).
  assert (Hl : length (pixels (ImageChops.difference b c))
               = length (pixels b))
    by (apply length_zip_with_same, Hlen).
  split; [|split; [reflexivity | exact Hl]].
  apply andb_true_iff. split.
  - apply Z.eqb_eq. rewrite Hl. exact Lb.
  - unfold ImageChops.difference. simpl.
    apply (forallb_zip_with _ in_range in_range);
      [apply in_range_difference | exact Rb | exact Rc].
Qed.

Lemma difference_well_formed_witness :
  well_formed (ImageChops.difference solid_red_2x2 solid_blue_2x2) = true
  /\ size (ImageChops.difference solid_red_2x2 solid_blue_2x2)
     = size solid_red_2x2
  /\ length (pixels (ImageChops.difference solid_red_2x2 solid_blue_2x2))
     = length (pixels solid_red_2x2).
Proof.
  apply (difference_well_formed solid_red_2x2 solid_blue_2x2); reflexivity.
Defined.

(** ** When the statistics vanish *)

Lemma sum_sq_nonneg (ch : band) (l : list Pixel) :
  0 <= fold_right (fun p acc => ch p * ch p + acc) 0 l.
Proof.
  induction l as [|p l IH]; simpl; [lia|].
  assert (0 <= ch p * ch p) by apply Z.square_nonneg. lia.
Qed.

Lemma pixel_eq (p q : Pixel) :
  red p = red q -> green p = green q -> blue p = blue q ->
  alpha p = alpha q -> p = q.
Proof. destruct p, q. simpl. intros -> -> -> ->. reflexivity. Qed.

Lemma square_zero (x : Z) : x * x = 0 -> x = 0.
Proof. nia. Qed.

(** The sums of squares of the difference image are zero in all four
    bands exactly when the two images have the same pixels: any pixel
    that differs in any band leaves a positive sum. *)
Theorem statistics_vanish_iff_same_pixels (b c : Image) :
  length (pixels b) = length (pixels c) ->
  (forall ch, In ch bands -> Stat.sum2 (ImageChops.difference b c) ch = 0)
  <-> pixels b = pixels c.
Proof.
  intros Hlen. split.
  - unfold Stat.sum2, ImageChops.difference, bands. simpl.
    revert Hlen. generalize (pixels c).
    induction (pixels b) as [|p ps IH]; intros [|q qs] Hlen H;
      simpl in *; try discriminate; [reflexivity|].
    assert (Hz : forall ch, In ch [red; green; blue; alpha] ->
              ch (ImageChops.difference_pixel p q)
              * ch (ImageChops.difference_pixel p q) = 0
              /\ fold_right (fun p acc => ch p * ch p + acc) 0
                   (zip_with ImageChops.difference_pixel ps qs) = 0).
    { intros ch Hch. specialize (H ch Hch).
      assert (N1 := sum_sq_nonneg ch
                      (zip_with ImageChops.difference_pixel ps qs)).
      assert (N2 := Z.square_nonneg (ch (ImageChops.difference_pixel p q))).
      lia. }
    f_equal.
    + apply pixel_eq.
      * destruct (Hz red) as [E _]; [simpl; tauto|].
        apply square_zero in E. simpl in E. lia.
      * destruct (Hz green) as [E _]; [simpl; tauto|].
        apply square_zero in E. simpl in E. lia.
      * destruct (Hz blue) as [E _]; [simpl; tauto|].
        apply square_zero in E. simpl in E. lia.
      * destruct (Hz alpha) as [E _]; [simpl; tauto|].
        apply square_zero in E. simpl in E. lia.
    + apply IH; [congruence|]. intros ch Hch. apply (Hz ch Hch).
  - intros Hsame ch Hch.
    rewrite (sum2_difference b c ch Hch).
    apply sum_of_squares_same, Hsame.
Qed.

Lemma statistics_vanish_iff_same_pixels_witness :
  (forall ch, In ch bands ->
     Stat.sum2 (ImageChops.difference solid_red_2x2 solid_blue_2x2) ch = 0)
  <-> pixels solid_red_2x2 = pixels solid_blue_2x2.
Proof.
  apply (statistics_vanish_iff_same_pixels solid_red_2x2 solid_blue_2x2).
  reflexivity.
Defined.

(** ** The [.4f] format, at a sample value *)


(** ** The command line, again *)

Section CommandLine.

Variable py_float : string -> option float.

Lemma main_exit_code (w : World) (args : Args) :
  exit_code w args = 0 \/ exit_code w args = 1 \/ exit_code w args = 2.
Proof.
  main_cases w args; auto.
  destruct (_ <=? max_rms args)%float; simpl; auto.
Qed.

(** The exit status of the whole script is 0, 1 or 2, whatever the
    command line and the files are. *)
Theorem script_exit_code (w : World) (prog : string) (argv : list string) :
  let code := (script py_float w prog argv).2 in
  code = 0 \/ code = 1 \/ code = 2.
Proof.
  unfold script. destruct (parse_args py_float argv) as [args| |msg]; simpl.
  - apply main_exit_code.
  - left. reflexivity.
  - right. right. reflexivity.
Qed.

Lemma plain_is_argument (s : string) :
  plain s = true ->
  parse_optional s = Done None /\ String.eqb s "--" = false.
Proof.
  destruct s as [|c s]; simpl; [split; reflexivity|].
  intros H. rewrite H. split; [reflexivity|].
  destruct (Ascii.eqb_spec c "-"); [discriminate|].
  destruct (Ascii.eqb_spec c "-"); [contradiction|reflexivity].
Qed.

(** Two paths that do not start with ["-"] and nothing else: the run is
    that of [main] on these paths with the defaults, output "diff.png"
    and threshold 0.0. *)
Theorem defaults_apply (w : World) (prog : string) (b c : string) :
  plain b = true -> plain c = true ->
  parse_args py_float [b; c]
  = Done {| baseline := b; current := c;
            out := "diff.png"; max_rms := 0 |}
  /\ script py_float w prog [b; c]
     = main w {| baseline := b; current := c;
                 out := "diff.png"; max_rms := 0 |}.
Proof.
  intros Hb Hc.
  assert (H : parse_args py_float [b; c]
              = Done {| baseline := b; current := c;
                        out := "diff.png"; max_rms := 0 |}).
  { unfold parse_args, parse_known_args.
    destruct (plain_is_argument _ Hb) as [Pb Eb].
    destruct (plain_is_argument _ Hc) as [Pc Ec].
    cbn [classify]. rewrite Eb, Pb. cbn [parse_bind]. rewrite Ec, Pc.
    reflexivity. }
  split; [exact H|]. unfold script. rewrite H. reflexivity.
Qed.

(** The two options may come before the paths or after them, and give
    the same namespace: the output path as written, the threshold as
    [float] reads it. *)
Theorem options_before_or_after (b c o v : string) (x : float) :
  plain b = true -> plain c = true -> plain o = true -> plain v = true ->
  py_float v = Some x ->
  parse_args py_float [b; c; "--out"; o; "--max-rms"; v]
  = Done {| baseline := b; current := c; out := o; max_rms := x |}
  /\ parse_args py_float ["--max-rms"; v; "--out"; o; b; c]
     = Done {| baseline := b; current := c; out := o; max_rms := x |}.
Proof.
  intros Hb Hc Ho Hv Hx.
  destruct (plain_is_argument _ Hb) as [Pb Eb].
  destruct (plain_is_argument _ Hc) as [Pc Ec].
  destruct (plain_is_argument _ Ho) as [Po Eo].
  destruct (plain_is_argument _ Hv) as [Pv Ev].
  split; unfold parse_args, parse_known_args; cbn [classify].
  - rewrite Eb, Pb. cbn [parse_bind]. rewrite Ec, Pc. cbn [parse_bind].
    change (String.eqb "--out" "--") with false.
    change (parse_optional "--out")
      with (Done (Some (Some StoreOut, "--out", @None string))).
    cbn [parse_bind]. rewrite Eo, Po. cbn [parse_bind].
    change (String.eqb "--max-rms" "--") with false.
    change (parse_optional "--max-rms")
      with (Done (Some (Some StoreMaxRms, "--max-rms", @None string))).
    cbn [parse_bind]. rewrite Ev, Pv. simpl. rewrite Hx. reflexivity.
  - change (String.eqb "--max-rms" "--") with false.
    change (parse_optional "--max-rms")
      with (Done (Some (Some StoreMaxRms, "--max-rms", @None string))).
    cbn [parse_bind]. rewrite Ev, Pv. cbn [parse_bind].
    change (String.eqb "--out" "--") with false.
    change (parse_optional "--out")
      with (Done (Some (Some StoreOut, "--out", @None string))).
    cbn [parse_bind]. rewrite Eo, Po. cbn [parse_bind].
    rewrite Eb, Pb. cbn [parse_bind]. rewrite Ec, Pc. simpl.
    rewrite Hx. reflexivity.
Qed.

(** A command line that starts with [-h] or [--help] prints the help and
    exits 0 without touching Pillow or any file, whatever follows --
    provided no later string is an ambiguous abbreviation, which the
    parser rejects before it acts on anything. *)
Theorem help_comes_first (w : World) (prog h : string)
    (rest : list string) (items : list Item) :
  h = "-h" \/ h = "--help" ->
  classify rest = Done items ->
  script py_float w prog (h :: rest) = (map Stdout (help prog), 0).
Proof.
  intros Hh Hrest. unfold script, parse_args, parse_known_args.
  destruct Hh as [-> | ->]; cbn [classify].
  - change (String.eqb "-h" "--") with false.
    change (parse_optional "-h")
      with (Done (Some (Some Help, "-h", @None string))).
    cbn [parse_bind]. rewrite Hrest. reflexivity.
  - change (String.eqb "--help" "--") with false.
    change (parse_optional "--help")
      with (Done (Some (Some Help, "--help", @None string))).
    cbn [parse_bind]. rewrite Hrest. reflexivity.
Qed.

End CommandLine.

Lemma defaults_apply_witness :
  parse_args sample_float ["baseline.png"; "current.png"]
  = Done {| baseline := "baseline.png"; current := "current.png";
            out := "diff.png"; max_rms := 0 |}
  /\ script sample_float sample_world "imgdiff.py"
       ["baseline.png"; "current.png"]
     = main sample_world
         {| baseline := "baseline.png"; current := "current.png";
            out := "diff.png"; max_rms := 0 |}.
Proof.
  apply (defaults_apply sample_float sample_world "imgdiff.py"
           "baseline.png" "current.png"); reflexivity.
Defined.

Lemma options_before_or_after_witness :
  parse_args sample_float
    ["baseline.png"; "current.png"; "--out"; "d.png"; "--max-rms"; "12"]
  = Done {| baseline := "baseline.png"; current := "current.png";
            out := "d.png"; max_rms := 12 |}
  /\ parse_args sample_float
       ["--max-rms"; "12"; "--out"; "d.png"; "baseline.png"; "current.png"]
     = Done {| baseline := "baseline.png"; current := "current.png";
               out := "d.png"; max_rms := 12 |}.
Proof.
  apply (options_before_or_after sample_float
           "baseline.png" "current.png" "d.png" "12" 12); reflexivity.
Defined.

Lemma help_comes_first_witness :
  script sample_float sample_world "imgdiff.py"
    ["--help"; "missing.png"; "--bogus"]
  = (map Stdout (help "imgdiff.py"), 0).
Proof.
  apply (help_comes_first sample_float sample_world "imgdiff.py" "--help"
           ["missing.png"; "--bogus"]
           [("missing.png", A); ("--bogus", O (None, "--bogus", None))]);
    [right; reflexivity | reflexivity].
Defined.
